(** * State-intro: the list widget of [src/App.jsx]

    A shallow embedding of the three React components of [App.jsx]
    ([ListItem], [List], [App]) and of the two event handlers of [App]
    ([handleChange], [handleSubmit]), with the part of the platform they
    call: [String.prototype.trim], [Array.prototype.map], [useState] and
    [Event.preventDefault]. *)

From Stdlib Require Import List String Ascii NArith Bool Arith Lia FinFun.
From ExtLib Require Import Structures.Monad Structures.MonadState.
From ExtLib Require Import Data.Monads.StateMonad.
Import ListNotations.
Import MonadNotation.
Local Open Scope monad_scope.
Local Open Scope string_scope.
Local Open Scope list_scope.
Local Open Scope nat_scope.

(** ** JavaScript strings *)

Module JS.

(** A JavaScript string is a sequence of UTF-16 code units. *)
Definition code_unit := N.
Definition jsstring := list code_unit.

(** A source literal written in ASCII. *)
Definition lit (s : string) : jsstring :=
  map N_of_ascii (list_ascii_of_string s).

(** [a === b] on strings: same code units in the same order. *)
Fixpoint strict_eq (a b : jsstring) : bool :=
  match a, b with
  | [], [] => true
  | x :: a', y :: b' => N.eqb x y && strict_eq a' b'
  | _, _ => false
  end.

(** [a !== b]. *)
Definition strict_neq (a b : jsstring) : bool := negb (strict_eq a b).

(** ECMAScript WhiteSpace and LineTerminator code points, the ones
    [String.prototype.trim] strips: TAB, LF, VT, FF, CR, SPACE, NBSP,
    U+1680, U+2000..U+200A, U+2028, U+2029, U+202F, U+205F, U+3000 and
    U+FEFF. All of them are single code units. *)
Definition isWhiteSpace (c : code_unit) : bool :=
  ((9 <=? c) && (c <=? 13) || (c =? 32) || (c =? 160) || (c =? 5760)
   || (8192 <=? c) && (c <=? 8202) || (c =? 8232) || (c =? 8233)
   || (c =? 8239) || (c =? 8287) || (c =? 12288) || (c =? 65279))%N.

(** [trimStart]: drop the leading white space. *)
Fixpoint trimStart (s : jsstring) : jsstring :=
  match s with
  | [] => []
  | c :: s' => if isWhiteSpace c then trimStart s' else s
  end.

(** [trimEnd]: drop the trailing white space. *)
Definition trimEnd (s : jsstring) : jsstring := rev (trimStart (rev s)).

(** [s.trim()]. *)
Definition trim (s : jsstring) : jsstring := trimEnd (trimStart s).

(** [arr.map((item, index) => f(item, index))]: the callback receives
    the element and its position, counted from 0. *)
Fixpoint array_map_from {A B : Type} (f : A -> nat -> B) (index : nat)
    (arr : list A) : list B :=
  match arr with
  | [] => []
  | item :: rest => f item index :: array_map_from f (S index) rest
  end.

Definition array_map {A B : Type} (f : A -> nat -> B) (arr : list A) : list B :=
  array_map_from f 0 arr.

End JS.

Import JS.

(** ** React elements *)

(** The two functions [App] hands to the DOM as props. A closure carries the
    variables of the render that created it: [handleSubmit] reads
    [inputValue] and [items], [handleChange] reads none. *)
Inductive closure : Type :=
| HandleChange
| HandleSubmit (inputValue : jsstring) (items : list jsstring).

Inductive prop_value : Type :=
| PStr (s : jsstring)
| PFun (f : closure).

(** What a component returns. [Comp name key out] is the element
    [<name key={key} .../>] together with what the component rendered for
    its props. *)
#[warnings="-register-all"]
Inductive element : Type :=
| Text (s : jsstring)
| Host (tag : string) (props : list (string * prop_value))
       (children : list element)
| Comp (name : string) (key : option nat) (rendered : element).

(** ** The runtime the handlers and [useState] act on *)

(** Calls a handler makes, in program order. *)
Inductive call : Type :=
| CallPreventDefault
| CallTrim (s : jsstring)
| CallSetItems (v : list jsstring)
| CallSetInputValue (v : jsstring).

(** The two state cells of the [App] instance, in the order of its
    [useState] calls ([None] until the first render), the
    [defaultPrevented] flag of the event being dispatched and the calls
    made so far while dispatching it. *)
Record world : Type := mkWorld {
  cell_inputValue : option jsstring;
  cell_items : option (list jsstring);
  defaultPrevented : bool;
  trace : list call
}.

Definition M := state world.

Definition log (c : call) : M unit :=
  modify (fun w => mkWorld (cell_inputValue w) (cell_items w)
                           (defaultPrevented w) (trace w ++ [c])) ;;
  ret tt.

(** [const [inputValue, setInputValue] = useState(initial)]: the first
    render stores [initial]; every render returns the stored value. *)
Definition useState_inputValue (initial : jsstring) : M jsstring :=
  w <- get ;;
  match cell_inputValue w with
  | Some v => ret v
  | None =>
      put (mkWorld (Some initial) (cell_items w)
                   (defaultPrevented w) (trace w)) ;;
      ret initial
  end.

(** [const [items, setItems] = useState(initial)]. *)
Definition useState_items (initial : list jsstring) : M (list jsstring) :=
  w <- get ;;
  match cell_items w with
  | Some v => ret v
  | None =>
      put (mkWorld (cell_inputValue w) (Some initial)
                   (defaultPrevented w) (trace w)) ;;
      ret initial
  end.

(** [setInputValue(v)]: the next render sees [v]. *)
Definition setInputValue (v : jsstring) : M unit :=
  log (CallSetInputValue v) ;;
  modify (fun w => mkWorld (Some v) (cell_items w)
                           (defaultPrevented w) (trace w)) ;;
  ret tt.

(** [setItems(v)]: the next render sees [v]. *)
Definition setItems (v : list jsstring) : M unit :=
  log (CallSetItems v) ;;
  modify (fun w => mkWorld (cell_inputValue w) (Some v)
                           (defaultPrevented w) (trace w)) ;;
  ret tt.

(** The event object a handler receives: [event.target.value] and
    [event.preventDefault()]. *)
Record event : Type := mkEvent { target_value : jsstring }.

Definition preventDefault (_ : event) : M unit :=
  log CallPreventDefault ;;
  modify (fun w => mkWorld (cell_inputValue w) (cell_items w)
                           true (trace w)) ;;
  ret tt.

(** [inputValue.trim()] as the handler calls it. *)
Definition call_trim (s : jsstring) : M jsstring :=
  log (CallTrim s) ;;
  ret (trim s).

(** ** The components *)

(** [const ListItem = ({ item }) => <li className=...>{item}</li>] *)
Definition ListItem (item : jsstring) : element :=
  Host "li"
    [("className",
      PStr (lit "bg-gray-50 p-3 rounded-md shadow-sm text-gray-700 flex items-center justify-between"))]
    [Text item].

(** [const List = ({ items }) =>
       <ul className=...>
         {items.map((item, index) => <ListItem key={index} item={item} />)}
       </ul>] *)
Definition List (items : list jsstring) : element :=
  Host "ul"
    [("className", PStr (lit "list-none p-0 space-y-2"))]
    (array_map (fun item index => Comp "ListItem" (Some index) (ListItem item))
               items).

(** [handleChange]: [setInputValue(event.target.value)]. *)
Definition handleChange (event : event) : M unit :=
  setInputValue (target_value event).

(** [handleSubmit], with the [inputValue] and [items] of the render that
    created it. *)
Definition handleSubmit (inputValue : jsstring) (items : list jsstring)
    (event : event) : M unit :=
  preventDefault event ;;
  trimmed <- call_trim inputValue ;;
  if strict_neq trimmed (lit "") then
    setItems (items ++ [inputValue]) ;;
    setInputValue (lit "")
  else
    ret tt.

(** The fixed paragraph shown while there are no items. *)
Definition placeholder : element :=
  Host "p" [("className", PStr (lit "text-center text-gray-500"))]
    [Text (lit "No items yet. Add something!")].

(** [App]: the two [useState] calls, then the JSX. The line break inside
    the two long [className] attributes is written as one space. *)
Definition App : M element :=
  inputValue <- useState_inputValue (lit "") ;;
  items <- useState_items [] ;;
  ret
    (Host "div" []
      [Host "div" []
        [Host "h1"
           [("className",
             PStr (lit "text-3xl font-bold text-blue-800 mb-6 text-center"))]
           [Text (lit "My Awesome List")];
         Host "form"
           [("onSubmit", PFun (HandleSubmit inputValue items));
            ("className", PStr (lit "flex gap-2 mb-6"))]
           [Host "input"
              [("type", PStr (lit "text"));
               ("value", PStr inputValue);
               ("onChange", PFun HandleChange);
               ("placeholder", PStr (lit "Enter a new item..."));
               ("className",
                PStr (lit "flex-grow p-3 border border-gray-300 rounded-md focus:outline-none focus:ring-2 focus:ring-blue-500"))]
              [];
            Host "button"
              [("type", PStr (lit "submit"));
               ("className",
                PStr (lit "px-5 py-3 bg-blue-600 text-white rounded-md font-semibold hover:bg-blue-700 focus:outline-none focus:ring-2 focus:ring-blue-500 focus:ring-offset-2 transition-colors"))]
              [Text (lit "Add")]];
         if 0 <? Datatypes.length items then Comp "List" None (List items)
         else placeholder]]).

(** ** Dispatching user events *)

(** Calling a function found in a prop. *)
Definition invoke (f : closure) (ev : event) : M unit :=
  match f with
  | HandleChange => handleChange ev
  | HandleSubmit inputValue items => handleSubmit inputValue items ev
  end.

Fixpoint prop_of (name : string) (props : list (string * prop_value))
  : option prop_value :=
  match props with
  | [] => None
  | (n, v) :: rest => if String.eqb n name then Some v else prop_of name rest
  end.

(** The function in prop [name] of the first [tag] element of a tree, in
    document order. *)
Fixpoint listener (tag name : string) (e : element) : option closure :=
  match e with
  | Text _ => None
  | Host t props children =>
      if String.eqb t tag then
        match prop_of name props with
        | Some (PFun f) => Some f
        | _ => None
        end
      else
        (fix first (l : list element) : option closure :=
           match l with
           | [] => None
           | c :: l' =>
               match listener tag name c with
               | Some f => Some f
               | None => first l'
               end
           end) children
  | Comp _ _ rendered => listener tag name rendered
  end.

(** What the user can do: type in the input (the change event carries the
    full text of the control) or submit the form. *)
Inductive user_event : Type :=
| OnChange (newText : jsstring)
| OnSubmit.

(** A new event starts with [defaultPrevented] false and an empty trace. *)
Definition new_event : M unit :=
  modify (fun w => mkWorld (cell_inputValue w) (cell_items w) false []) ;;
  ret tt.

(** One user event: the tree of the latest render holds the handlers; the
    event goes to the [onChange] of the input or to the [onSubmit] of the
    form. [handleSubmit] does not read the target of its event. *)
Definition dispatch (e : user_event) : M unit :=
  tree <- App ;;
  new_event ;;
  match e with
  | OnChange newText =>
      match listener "input" "onChange" tree with
      | Some f => invoke f (mkEvent newText)
      | None => ret tt
      end
  | OnSubmit =>
      match listener "form" "onSubmit" tree with
      | Some f => invoke f (mkEvent (lit ""))
      | None => ret tt
      end
  end.

Definition step (e : user_event) (w : world) : world :=
  snd (runState (dispatch e) w).

Definition run (events : list user_event) (w : world) : world :=
  fold_left (fun w e => step e w) events w.

(** Before the first render, and after it. *)
Definition unmounted : world := mkWorld None None false [].

Definition initial : world := snd (runState App unmounted).

(** The state as the next render reads it. *)
Definition DraftText (w : world) : jsstring :=
  fst (runState (useState_inputValue (lit "")) w).

Definition ItemList (w : world) : list jsstring :=
  fst (runState (useState_items []) w).

(** What [App] displays in a world. *)
Definition render (w : world) : element := fst (runState App w).

(** The browser reloads the page after a submit event unless a handler
    called [preventDefault]. *)
Definition reloads (w : world) : bool := negb (defaultPrevented w).

(** ** Reading a tree *)

Definition children_of (e : element) : list element :=
  match e with
  | Host _ _ children => children
  | _ => []
  end.

(** The child at a path of positions from the root. *)
Fixpoint descend (path : list nat) (e : element) : option element :=
  match path with
  | [] => Some e
  | i :: path' =>
      match nth_error (children_of e) i with
      | Some c => descend path' c
      | None => None
      end
  end.

(** The place of the conditional in the JSX of [App]: third child of the
    inner [div]. *)
Definition display (tree : element) : option element := descend [0; 2] tree.

(** Whether a [tag] element occurs anywhere in a tree. *)
Fixpoint has_tag (tag : string) (e : element) : bool :=
  match e with
  | Text _ => false
  | Host t _ children =>
      String.eqb t tag
      || (fix any (l : list element) : bool :=
            match l with
            | [] => false
            | c :: l' => has_tag tag c || any l'
            end) children
  | Comp _ _ rendered => has_tag tag rendered
  end.

(** The text of a tree, as the DOM's [textContent] gives it. *)
Fixpoint textContent (e : element) : jsstring :=
  match e with
  | Text s => s
  | Host _ _ children =>
      (fix all (l : list element) : jsstring :=
         match l with
         | [] => []
         | c :: l' => textContent c ++ all l'
         end) children
  | Comp _ _ rendered => textContent rendered
  end.

(** How many [tag] elements a tree holds. *)
Fixpoint count_tag (tag : string) (e : element) : nat :=
  match e with
  | Text _ => 0
  | Host t _ children =>
      (if String.eqb t tag then 1 else 0)
      + (fix sum (l : list element) : nat :=
           match l with
           | [] => 0
           | c :: l' => count_tag tag c + sum l'
           end) children
  | Comp _ _ rendered => count_tag tag rendered
  end.

(** The key React reads on a child of an array. *)
Definition key_of (e : element) : option nat :=
  match e with
  | Comp _ key _ => key
  | _ => None
  end.

(** The value of prop [name] of the first [tag] element of a tree, in
    document order. *)
Fixpoint attribute (tag name : string) (e : element) : option prop_value :=
  match e with
  | Text _ => None
  | Host t props children =>
      if String.eqb t tag then prop_of name props
      else
        (fix first (l : list element) : option prop_value :=
           match l with
           | [] => None
           | c :: l' =>
               match attribute tag name c with
               | Some v => Some v
               | None => first l'
               end
           end) children
  | Comp _ _ rendered => attribute tag name rendered
  end.

(** The submit events of a sequence. *)
Definition is_submit (e : user_event) : bool :=
  match e with
  | OnSubmit => true
  | OnChange _ => false
  end.

Definition count_submits (events : list user_event) : nat :=
  Datatypes.length (filter is_submit events).

(** An item the form accepts: not empty once trimmed. *)
Definition valid (item : jsstring) : Prop := trim item <> lit "".

(** * Properties *)

(** ** Strings *)

Lemma strict_eq_spec (a b : jsstring) : strict_eq a b = true <-> a = b.
Proof.
  revert b; induction a as [|x a IH]; intros [|y b]; simpl;
    try (split; [discriminate | congruence]); try tauto.
  rewrite andb_true_iff, N.eqb_eq, IH. split.
  - intros [-> ->]; reflexivity.
  - intros E; injection E; auto.
Qed.

Lemma strict_neq_true (a b : jsstring) : a <> b -> strict_neq a b = true.
Proof.
  intros H. unfold strict_neq. destruct (strict_eq a b) eqn:E; [|reflexivity].
  apply strict_eq_spec in E. contradiction.
Qed.

Lemma strict_neq_false (a b : jsstring) : a = b -> strict_neq a b = false.
Proof.
  intros H. unfold strict_neq. apply strict_eq_spec in H. now rewrite H.
Qed.



(** ** The two transitions in closed form *)

#[local] Arguments strict_neq : simpl never.
#[local] Arguments trim : simpl never.
#[local] Arguments lit : simpl never.

Lemma step_OnChange (w : world) (newText : jsstring) :
  step (OnChange newText) w =
  mkWorld (Some newText) (Some (ItemList w)) false
          [CallSetInputValue newText].
Proof.
  destruct w as [[i|] [l|] p t]; reflexivity.
Qed.

Lemma step_OnSubmit_accept (w : world) :
  trim (DraftText w) <> lit "" ->
  step OnSubmit w =
  mkWorld (Some (lit "")) (Some (ItemList w ++ [DraftText w])) true
          [CallPreventDefault; CallTrim (DraftText w);
           CallSetItems (ItemList w ++ [DraftText w]);
           CallSetInputValue (lit "")].
Proof.
  intros H. apply strict_neq_true in H.
  destruct w as [[i|] [l|] p t]; unfold step, DraftText, ItemList in *;
    cbn in *; rewrite H; reflexivity.
Qed.

Lemma step_OnSubmit_reject (w : world) :
  trim (DraftText w) = lit "" ->
  step OnSubmit w =
  mkWorld (Some (DraftText w)) (Some (ItemList w)) true
          [CallPreventDefault; CallTrim (DraftText w)].
Proof.
  intros H. apply strict_neq_false in H.
  destruct w as [[i|] [l|] p t]; unfold step, DraftText, ItemList in *;
    cbn in *; rewrite H; reflexivity.
Qed.

(** The state cells a transition leaves behind are always filled. *)
Lemma ItemList_mkWorld i l p t : ItemList (mkWorld i (Some l) p t) = l.
Proof. destruct i; reflexivity. Qed.

Lemma DraftText_mkWorld v l p t : DraftText (mkWorld (Some v) l p t) = v.
Proof. reflexivity. Qed.

(** A draft is either rejected or accepted by the test of [handleSubmit]. *)
Lemma trim_empty_dec (s : jsstring) : {trim s = lit ""} + {trim s <> lit ""}.
Proof. apply (list_eq_dec N.eq_dec). Qed.

(** ** Submitting *)

(** C1: for every string [s] with [trim s <> ""], a submit while the draft
    is [s] appends exactly [s], untrimmed, as the last element of the item
    list and resets the draft to the empty string. *)
Theorem submit_appends_untrimmed_draft (w : world) (s : jsstring) :
  DraftText w = s ->
  trim s <> lit "" ->
  ItemList (step OnSubmit w) = ItemList w ++ [s]
  /\ DraftText (step OnSubmit w) = lit "".
Proof.
  intros <- Hs. rewrite (step_OnSubmit_accept w Hs).
  rewrite ItemList_mkWorld, DraftText_mkWorld. split; reflexivity.
Qed.

Lemma submit_appends_untrimmed_draft_witness :
  let s := lit " a " in
  let w := step (OnChange s) initial in
  (DraftText w = s /\ trim s <> lit "")
  /\ ItemList (step OnSubmit w) = ItemList w ++ [s]
  /\ DraftText (step OnSubmit w) = lit "".
Proof.
  cbv zeta. split.
  - split; [reflexivity | intros H; vm_compute in H; discriminate H].
  - apply (submit_appends_untrimmed_draft
             (step (OnChange (lit " a ")) initial) (lit " a ")).
    + reflexivity.
    + intros H; vm_compute in H; discriminate H.
Defined.

(** C2: for every string [s] with [trim s = ""], a submit while the draft
    is [s] leaves the item list and the draft as they were; the handler
    calls no state setter, and it has no failing outcome. The witness runs
    it on the empty string, on three spaces and on a tab. *)
Theorem submit_blank_is_silent_noop (w : world) (s : jsstring) :
  DraftText w = s ->
  trim s = lit "" ->
  ItemList (step OnSubmit w) = ItemList w
  /\ DraftText (step OnSubmit w) = s
  /\ trace (step OnSubmit w) = [CallPreventDefault; CallTrim s].
Proof.
  intros <- Hs. rewrite (step_OnSubmit_reject w Hs).
  rewrite ItemList_mkWorld, DraftText_mkWorld. repeat split.
Qed.

Lemma submit_blank_is_silent_noop_witness :
  let tab := [9%N] in
  let w := step (OnChange tab) (run [OnChange (lit "Milk"); OnSubmit] initial) in
  (DraftText w = tab /\ trim tab = lit "")
  /\ (ItemList (step OnSubmit w) = [lit "Milk"]
      /\ DraftText (step OnSubmit w) = tab
      /\ trace (step OnSubmit w) = [CallPreventDefault; CallTrim tab])
  /\ (ItemList (step OnSubmit initial) = []
      /\ DraftText (step OnSubmit initial) = lit ""
      /\ trace (step OnSubmit initial) = [CallPreventDefault; CallTrim (lit "")])
  /\ (ItemList (step OnSubmit (step (OnChange (lit "   ")) initial)) = []
      /\ DraftText (step OnSubmit (step (OnChange (lit "   ")) initial))
         = lit "   "
      /\ trace (step OnSubmit (step (OnChange (lit "   ")) initial))
         = [CallPreventDefault; CallTrim (lit "   ")]).
Proof.
  cbv zeta. split; [split; reflexivity|]. split; [|split].
  - apply (submit_blank_is_silent_noop
             (step (OnChange [9%N])
                   (run [OnChange (lit "Milk"); OnSubmit] initial)) [9%N]);
      reflexivity.
  - apply (submit_blank_is_silent_noop initial (lit "")); reflexivity.
  - apply (submit_blank_is_silent_noop
             (step (OnChange (lit "   ")) initial) (lit "   "));
      reflexivity.
Defined.

(** ** The invariant of the item list *)

Lemma step_keeps_valid (e : user_event) (w : world) :
  Forall valid (ItemList w) -> Forall valid (ItemList (step e w)).
Proof.
  intros Hw. destruct e as [newText|].
  - rewrite step_OnChange, ItemList_mkWorld. exact Hw.
  - destruct (trim_empty_dec (DraftText w)) as [Hd|Hd].
    + rewrite (step_OnSubmit_reject w Hd), ItemList_mkWorld. exact Hw.
    + rewrite (step_OnSubmit_accept w Hd), ItemList_mkWorld.
      apply Forall_app. split; [exact Hw|]. constructor; [exact Hd|constructor].
Qed.

Lemma run_keeps_valid (events : list user_event) :
  forall w, Forall valid (ItemList w) -> Forall valid (ItemList (run events w)).
Proof.
  induction events as [|e events IH]; intros w Hw; simpl.
  - exact Hw.
  - apply IH, step_keeps_valid, Hw.
Qed.

(** C3: the first render gives the empty draft and the empty item list, and
    in every state reached from there by change and submit events no
    element of the item list is empty after trimming; the draft itself can
    hold such a value. *)
Theorem item_list_never_holds_blank :
  (DraftText initial = lit "" /\ ItemList initial = [])
  /\ (forall events : list user_event,
        Forall (fun item => trim item <> lit "")
               (ItemList (run events initial)))
  /\ (exists events : list user_event,
        DraftText (run events initial) <> lit ""
        /\ trim (DraftText (run events initial)) = lit "").
Proof.
  split; [split; reflexivity|]. split.
  - intros events. apply (run_keeps_valid events initial). constructor.
  - exists [OnChange (lit "  ")]. split; [discriminate | reflexivity].
Qed.

(** ** Order of the item list *)

(** Typing [s] and submitting it, in any state. *)
Lemma type_and_submit_valid (w : world) (s : jsstring) :
  trim s <> lit "" ->
  ItemList (run [OnChange s; OnSubmit] w) = ItemList w ++ [s]
  /\ DraftText (run [OnChange s; OnSubmit] w) = lit "".
Proof.
  intros Hs. simpl.
  assert (Hd : DraftText (step (OnChange s) w) = s)
    by (rewrite step_OnChange; reflexivity).
  assert (Ht : trim (DraftText (step (OnChange s) w)) <> lit "")
    by (rewrite Hd; exact Hs).
  rewrite (step_OnSubmit_accept _ Ht), ItemList_mkWorld, DraftText_mkWorld, Hd.
  rewrite step_OnChange, ItemList_mkWorld. split; reflexivity.
Qed.

Lemma type_and_submit_blank (w : world) (s : jsstring) :
  trim s = lit "" ->
  ItemList (run [OnChange s; OnSubmit] w) = ItemList w.
Proof.
  intros Hs. simpl.
  assert (Hd : DraftText (step (OnChange s) w) = s)
    by (rewrite step_OnChange; reflexivity).
  assert (Ht : trim (DraftText (step (OnChange s) w)) = lit "")
    by (rewrite Hd; exact Hs).
  rewrite (step_OnSubmit_reject _ Ht), ItemList_mkWorld.
  rewrite step_OnChange, ItemList_mkWorld. reflexivity.
Qed.

Lemma run_app (es1 es2 : list user_event) (w : world) :
  run (es1 ++ es2) w = run es2 (run es1 w).
Proof. unfold run. apply fold_left_app. Qed.

(** C4: for valid [s1] and [s2], starting from the empty item list,
    submitting [s1] and then [s2] gives [[s1; s2]], in that order (and so
    not [[s2; s1]], a different list as soon as the two strings differ),
    also with a rejected blank submit in between; in any state a
    successful submit appends at the end and keeps the earlier elements and
    their order. *)
Theorem submits_keep_order (s1 s2 : jsstring) :
  trim s1 <> lit "" ->
  trim s2 <> lit "" ->
  ItemList (run [OnChange s1; OnSubmit; OnChange s2; OnSubmit] initial)
  = [s1; s2]
  /\ (s1 <> s2 ->
      ItemList (run [OnChange s1; OnSubmit; OnChange s2; OnSubmit] initial)
      <> [s2; s1])
  /\ (forall blank : jsstring,
        trim blank = lit "" ->
        ItemList (run [OnChange s1; OnSubmit; OnChange blank; OnSubmit;
                       OnChange s2; OnSubmit] initial)
        = [s1; s2])
  /\ (forall w : world,
        ItemList (run [OnChange s1; OnSubmit] w) = ItemList w ++ [s1]).
Proof.
  intros H1 H2.
  assert (E : ItemList (run [OnChange s1; OnSubmit; OnChange s2; OnSubmit]
                            initial) = [s1; s2]).
  { change [OnChange s1; OnSubmit; OnChange s2; OnSubmit]
      with ([OnChange s1; OnSubmit] ++ [OnChange s2; OnSubmit]).
    rewrite run_app.
    rewrite (proj1 (type_and_submit_valid _ s2 H2)).
    rewrite (proj1 (type_and_submit_valid initial s1 H1)). reflexivity. }
  split; [exact E|]. split; [|split].
  - intros Hne. rewrite E. intros Heq. injection Heq as Heq _. contradiction.
  - intros blank Hb.
    change [OnChange s1; OnSubmit; OnChange blank; OnSubmit;
            OnChange s2; OnSubmit]
      with ([OnChange s1; OnSubmit]
            ++ [OnChange blank; OnSubmit] ++ [OnChange s2; OnSubmit]).
    rewrite !run_app.
    rewrite (proj1 (type_and_submit_valid _ s2 H2)).
    rewrite (type_and_submit_blank _ blank Hb).
    rewrite (proj1 (type_and_submit_valid initial s1 H1)). reflexivity.
  - intros w. exact (proj1 (type_and_submit_valid w s1 H1)).
Qed.

Lemma submits_keep_order_witness :
  let milk := lit "Milk" in
  let eggs := lit "Eggs" in
  (trim milk <> lit "" /\ trim eggs <> lit "")
  /\ ItemList (run [OnChange milk; OnSubmit; OnChange eggs; OnSubmit] initial)
     = [milk; eggs]
  /\ ItemList (run [OnChange milk; OnSubmit; OnChange (lit "  "); OnSubmit;
                    OnChange eggs; OnSubmit] initial)
     = [milk; eggs].
Proof.
  cbv zeta.
  assert (Hm : trim (lit "Milk") <> lit "")
    by (intros H; vm_compute in H; discriminate H).
  assert (He : trim (lit "Eggs") <> lit "")
    by (intros H; vm_compute in H; discriminate H).
  split; [split; assumption|].
  destruct (submits_keep_order (lit "Milk") (lit "Eggs") Hm He)
    as (Hab & _ & Hblank & _).
  split; [exact Hab | apply Hblank; reflexivity].
Defined.

(** ** What [App] displays *)

(** The third child of the inner [div] is the conditional of the JSX. *)
Lemma display_render (w : world) :
  display (render w)
  = Some (if 0 <? Datatypes.length (ItemList w)
          then Comp "List" None (List (ItemList w))
          else placeholder).
Proof.
  destruct w as [[i|] [l|] p t]; reflexivity.
Qed.

(** ** [List] and [ListItem] *)

Lemma array_map_from_length {A B : Type} (f : A -> nat -> B) (arr : list A) :
  forall index, Datatypes.length (array_map_from f index arr) = Datatypes.length arr.
Proof.
  induction arr as [|item rest IH]; intros index; simpl;
    [reflexivity | now rewrite IH].
Qed.

Lemma array_map_from_nth {A B : Type} (f : A -> nat -> B) (arr : list A) :
  forall index i,
    nth_error (array_map_from f index arr) i
    = option_map (fun item => f item (index + i)) (nth_error arr i).
Proof.
  induction arr as [|item rest IH]; intros index [|i]; simpl; try reflexivity.
  - now rewrite Nat.add_0_r.
  - rewrite IH. simpl. now rewrite Nat.add_succ_r.
Qed.

(** C6: for every sequence of strings, [List] produces a [ul] with exactly
    one [ListItem] rendering per element, in the order of the input, the
    rendering at position [i] having key [i]. *)
Theorem list_renders_one_keyed_item_per_element (items : list jsstring) :
  (exists props, List items = Host "ul" props (children_of (List items)))
  /\ Datatypes.length (children_of (List items)) = Datatypes.length items
  /\ (forall i : nat,
        nth_error (children_of (List items)) i
        = option_map (fun item => Comp "ListItem" (Some i) (ListItem item))
                     (nth_error items i)).
Proof.
  split; [eexists; reflexivity|]. split.
  - apply array_map_from_length.
  - intros i. unfold List, children_of, array_map.
    rewrite array_map_from_nth. reflexivity.
Qed.

Lemma textContent_items (items : list jsstring) :
  forall index,
    List.map textContent
      (array_map_from
         (fun item index => Comp "ListItem" (Some index) (ListItem item))
         index items)
    = items.
Proof.
  induction items as [|item rest IH]; intros index; simpl.
  - reflexivity.
  - rewrite app_nil_r, IH. reflexivity.
Qed.

(** C10: [ListItem] renders its string as it is: the [li] it returns has
    the string as its only child and as its text, and the texts of the
    children of [List items] are the items themselves. *)
Theorem list_item_renders_string_verbatim :
  (forall s : jsstring,
     (exists props, ListItem s = Host "li" props [Text s])
     /\ textContent (ListItem s) = s)
  /\ (forall items : list jsstring,
        List.map textContent (children_of (List items)) = items).
Proof.
  split.
  - intros s. split; [eexists; reflexivity|]. simpl. apply app_nil_r.
  - intros items. apply (textContent_items items 0).
Qed.

(** ** The handlers *)

(** C7: for every string and every state, a change event sets the draft to
    the text it carries and leaves the item list as it is; the handler only
    calls [setInputValue], with no test on the text. *)
Theorem change_sets_draft_only (w : world) (newText : jsstring) :
  DraftText (step (OnChange newText) w) = newText
  /\ ItemList (step (OnChange newText) w) = ItemList w
  /\ trace (step (OnChange newText) w) = [CallSetInputValue newText].
Proof.
  rewrite step_OnChange, ItemList_mkWorld, DraftText_mkWorld. repeat split.
Qed.

(** C8: every submit event, accepted or rejected, ends with its default
    action prevented, so the page does not reload; [preventDefault] is the
    first call of the handler, ahead of the [trim] of the test, and the
    setters follow only when the test passes. *)
Theorem submit_prevents_default_first (w : world) :
  defaultPrevented (step OnSubmit w) = true
  /\ reloads (step OnSubmit w) = false
  /\ trace (step OnSubmit w)
     = CallPreventDefault :: CallTrim (DraftText w)
       :: (if strict_neq (trim (DraftText w)) (lit "")
           then [CallSetItems (ItemList w ++ [DraftText w]);
                 CallSetInputValue (lit "")]
           else []).
Proof.
  destruct (trim_empty_dec (DraftText w)) as [Hd|Hd].
  - rewrite (step_OnSubmit_reject w Hd), (strict_neq_false _ _ Hd).
    repeat split.
  - rewrite (step_OnSubmit_accept w Hd), (strict_neq_true _ _ Hd).
    repeat split.
Qed.

(** ** Rendering again *)

(** C9: rendering is idempotent. Two renders of [App] in a row return the
    same tree, the second leaves the world as the first left it, and a
    render changes neither the draft nor the item list; and two worlds with
    the same item list display the same thing for it. *)
Theorem rendering_is_idempotent (w w' : world) :
  ItemList w = ItemList w' ->
  display (render w) = display (render w')
  /\ fst (runState (App ;; App) w) = fst (runState App w)
  /\ snd (runState (App ;; App) w) = snd (runState App w)
  /\ render (snd (runState App w)) = render w
  /\ DraftText (snd (runState App w)) = DraftText w
  /\ ItemList (snd (runState App w)) = ItemList w.
Proof.
  intros H. split.
  - rewrite !display_render, H. reflexivity.
  - destruct w as [[i|] [l|] p t]; repeat split.
Qed.

Lemma rendering_is_idempotent_witness :
  let w := run [OnChange (lit "Milk"); OnSubmit] initial in
  let w' := step (OnChange (lit "  ")) w in
  ItemList w = ItemList w'
  /\ display (render w) = display (render w')
  /\ render (snd (runState App w)) = render w.
Proof.
  cbv zeta.
  split; [reflexivity|].
  destruct (rendering_is_idempotent
              (run [OnChange (lit "Milk"); OnSubmit] initial)
              (step (OnChange (lit "  "))
                    (run [OnChange (lit "Milk"); OnSubmit] initial))
              eq_refl) as (Hd & _ & _ & Hr & _).
  split; [exact Hd | exact Hr].
Defined.

(** * Further properties of the handlers and of the rendering *)

(** ** Which drafts [handleSubmit] rejects *)







(** ** Sequences of events *)

Lemma trim_lit_empty : trim (lit "") = lit "".
Proof. reflexivity. Qed.

(** X2: a second submit right after a submit changes neither the draft nor
    the item list: after an accepted submit the draft is empty and the next
    one is rejected, after a rejected one the draft is still blank. *)
Theorem submit_twice_is_submit_once (w : world) :
  DraftText (run [OnSubmit; OnSubmit] w) = DraftText (step OnSubmit w)
  /\ ItemList (run [OnSubmit; OnSubmit] w) = ItemList (step OnSubmit w).
Proof.
  simpl.
  assert (Hd : trim (DraftText (step OnSubmit w)) = lit "").
  { destruct (trim_empty_dec (DraftText w)) as [Hd|Hd].
    - rewrite (step_OnSubmit_reject w Hd), DraftText_mkWorld. exact Hd.
    - rewrite (step_OnSubmit_accept w Hd), DraftText_mkWorld.
      exact trim_lit_empty. }
  rewrite (step_OnSubmit_reject _ Hd), ItemList_mkWorld, DraftText_mkWorld.
  split; reflexivity.
Qed.

(** X3: the item list is append-only. After any sequence of events the item
    list is the earlier item list followed by new items, each of them not
    empty after trimming, and at most one per submit event. *)
Theorem item_list_is_append_only (events : list user_event) (w : world) :
  exists added : list jsstring,
    ItemList (run events w) = ItemList w ++ added
    /\ Forall (fun item => trim item <> lit "") added
    /\ Datatypes.length added <= count_submits events.
Proof.
  revert w. induction events as [|e events IH]; intros w.
  - exists []. simpl. rewrite app_nil_r. repeat split; [constructor | lia].
  - destruct (IH (step e w)) as (added & Hl & Hv & Hn).
    change (run (e :: events) w) with (run events (step e w)).
    destruct e as [newText|].
    + exists added. rewrite Hl, step_OnChange, ItemList_mkWorld.
      repeat split; assumption.
    + unfold count_submits in *. simpl.
      destruct (trim_empty_dec (DraftText w)) as [Hd|Hd].
      * exists added. rewrite Hl, (step_OnSubmit_reject w Hd), ItemList_mkWorld.
        repeat split; [assumption | lia].
      * exists (DraftText w :: added).
        rewrite Hl, (step_OnSubmit_accept w Hd), ItemList_mkWorld.
        rewrite <- app_assoc. simpl. repeat split; [|lia].
        constructor; assumption.
Qed.

(** ** Rows and keys of [List] *)

Lemma array_map_from_app {A B : Type} (f : A -> nat -> B) (a b : list A) :
  forall index,
    array_map_from f index (a ++ b)
    = array_map_from f index a
      ++ array_map_from f (index + Datatypes.length a) b.
Proof.
  induction a as [|item rest IH]; intros index; simpl.
  - now rewrite Nat.add_0_r.
  - rewrite IH. simpl. now rewrite Nat.add_succ_r.
Qed.

(** X4: appending an item leaves the rows of [List] for the earlier items
    as they were, keys included, and adds one row at the end whose key is
    the earlier length: with index keys, an append never moves a key to
    another item. *)
Theorem list_append_keeps_rows (items : list jsstring) (s : jsstring) :
  children_of (List (items ++ [s]))
  = children_of (List items)
    ++ [Comp "ListItem" (Some (Datatypes.length items)) (ListItem s)].
Proof.
  unfold List, children_of, array_map.
  rewrite array_map_from_app. reflexivity.
Qed.

Lemma keys_array_map_from (items : list jsstring) :
  forall index,
    List.map key_of
      (array_map_from
         (fun item index => Comp "ListItem" (Some index) (ListItem item))
         index items)
    = List.map Some (seq index (Datatypes.length items)).
Proof.
  induction items as [|item rest IH]; intros index; simpl.
  - reflexivity.
  - rewrite IH. reflexivity.
Qed.

(** X5: the keys of the rows of [List] are the positions 0, 1, ... in
    order, so no two rows share a key, also when two items are the same
    string. *)
Theorem list_keys_are_distinct_positions (items : list jsstring) :
  List.map key_of (children_of (List items))
  = List.map Some (seq 0 (Datatypes.length items))
  /\ NoDup (List.map key_of (children_of (List items))).
Proof.
  assert (E : List.map key_of (children_of (List items))
              = List.map Some (seq 0 (Datatypes.length items)))
    by apply (keys_array_map_from items 0).
  split; [exact E|]. rewrite E.
  apply Injective_map_NoDup; [|apply seq_NoDup].
  intros a b H. injection H. auto.
Qed.

Lemma count_li_rows (items : list jsstring) :
  forall index,
    (fix sum (l : list element) : nat :=
       match l with
       | [] => 0
       | c :: l' => count_tag "li" c + sum l'
       end)
      (array_map_from
         (fun item index => Comp "ListItem" (Some index) (ListItem item))
         index items)
    = Datatypes.length items.
Proof.
  induction items as [|item rest IH]; intros index.
  - reflexivity.
  - cbn [array_map_from Datatypes.length]. rewrite IH. reflexivity.
Qed.

Lemma count_li_List (items : list jsstring) :
  count_tag "li" (List items) = Datatypes.length items.
Proof.
  unfold List, array_map. cbn [count_tag]. rewrite count_li_rows. reflexivity.
Qed.

Lemma count_other_rows (tag : string) (items : list jsstring) :
  String.eqb "li" tag = false ->
  forall index,
    (fix sum (l : list element) : nat :=
       match l with
       | [] => 0
       | c :: l' => count_tag tag c + sum l'
       end)
      (array_map_from
         (fun item index => Comp "ListItem" (Some index) (ListItem item))
         index items)
    = 0.
Proof.
  intros Hli. induction items as [|item rest IH]; intros index.
  - reflexivity.
  - cbn [array_map_from]. rewrite IH.
    unfold ListItem. cbn [count_tag]. rewrite Hli. reflexivity.
Qed.

(** The conditional of [App] holds the only [ul], [li] and [p] elements. *)
Lemma count_other_display (tag : string) (l : list jsstring) :
  tag <> "ul" -> tag <> "li" -> tag <> "p" ->
  count_tag tag
    (if 0 <? Datatypes.length l
     then Comp "List" None (List l) else placeholder)
  = 0.
Proof.
  intros Hul Hli Hp.
  apply String.eqb_neq in Hul, Hli, Hp.
  rewrite String.eqb_sym in Hul, Hli, Hp.
  destruct l as [|item l]; cbn [Nat.ltb Nat.leb Datatypes.length].
  - unfold placeholder. cbn [count_tag]. rewrite Hp. reflexivity.
  - unfold List, array_map. cbn [count_tag]. rewrite Hul.
    rewrite (count_other_rows tag (item :: l) Hli 0). reflexivity.
Qed.

Lemma count_li_display (l : list jsstring) :
  count_tag "li"
    (if 0 <? Datatypes.length l
     then Comp "List" None (List l) else placeholder)
  = Datatypes.length l.
Proof.
  destruct l as [|item l]; [reflexivity|]. apply (count_li_List (item :: l)).
Qed.

(** X6: what [App] renders holds exactly one [li] per item of the item
    list, none when the list is empty, and always exactly one form, one
    input and one button. *)
Theorem app_renders_one_row_per_item (w : world) :
  count_tag "li" (render w) = Datatypes.length (ItemList w)
  /\ count_tag "form" (render w) = 1
  /\ count_tag "input" (render w) = 1
  /\ count_tag "button" (render w) = 1.
Proof.
  destruct w as [[i|] [l|] p t]; unfold render, ItemList; cbn [fst];
    (split; [| split; [|split]]).
  all: cbn -[count_tag List placeholder Nat.ltb]; cbn [count_tag];
    rewrite ?count_li_display, ?count_other_display by discriminate;
    cbn; lia.
Qed.

(** ** The form *)

(** What [App] renders depends on the draft and on the item list only. *)
Lemma render_state (w : world) :
  render w
  = render (mkWorld (Some (DraftText w)) (Some (ItemList w)) false []).
Proof.
  destruct w as [[i|] [l|] p t]; reflexivity.
Qed.

Lemma render_ext (w w' : world) :
  DraftText w = DraftText w' -> ItemList w = ItemList w' ->
  render w = render w'.
Proof.
  intros Hd Hl.
  transitivity
    (render (mkWorld (Some (DraftText w)) (Some (ItemList w)) false [])).
  - apply render_state.
  - rewrite Hd, Hl. symmetry. apply render_state.
Qed.

(** X7: the input is controlled and the handlers are fresh. In what [App]
    renders, the [value] of the input is the draft, its [onChange] is
    [handleChange], the [onSubmit] of the form is the [handleSubmit] that
    holds the draft and the item list of this very state, and the button
    submits the form; after a change event the input shows the text the
    event carried. *)
Theorem form_is_wired_to_the_state (w : world) (newText : jsstring) :
  attribute "input" "value" (render w) = Some (PStr (DraftText w))
  /\ listener "input" "onChange" (render w) = Some HandleChange
  /\ listener "form" "onSubmit" (render w)
     = Some (HandleSubmit (DraftText w) (ItemList w))
  /\ attribute "button" "type" (render w) = Some (PStr (lit "submit"))
  /\ attribute "input" "value" (render (step (OnChange newText) w))
     = Some (PStr newText).
Proof.
  split; [|split; [|split; [|split]]].
  5: rewrite step_OnChange.
  all: destruct w as [[i|] [l|] p t]; reflexivity.
Qed.

(** X8: a rejected submit changes nothing on screen: when the draft trims
    to the empty string, [App] renders after the submit what it rendered
    before, the blank draft still in the input. *)
Theorem rejected_submit_renders_the_same (w : world) :
  trim (DraftText w) = lit "" ->
  render (step OnSubmit w) = render w.
Proof.
  intros Hd. rewrite (step_OnSubmit_reject w Hd).
  apply render_ext; [apply DraftText_mkWorld | apply ItemList_mkWorld].
Qed.

Lemma rejected_submit_renders_the_same_witness :
  let w := run [OnChange (lit "Milk"); OnSubmit; OnChange (lit "  ")] initial in
  trim (DraftText w) = lit ""
  /\ render (step OnSubmit w) = render w.
Proof.
  cbv zeta. split; [reflexivity|].
  apply (rejected_submit_renders_the_same
           (run [OnChange (lit "Milk"); OnSubmit; OnChange (lit "  ")]
                initial)).
  reflexivity.
Defined.

(** X9: typing a valid string and submitting it, in any state, makes [App]
    display the list (not the placeholder) with the earlier rows followed
    by one last row for the string as typed, and empties the input. *)
Theorem typed_and_submitted_item_is_last_row (w : world) (s : jsstring) :
  trim s <> lit "" ->
  display (render (run [OnChange s; OnSubmit] w))
  = Some (Comp "List" None (List (ItemList w ++ [s])))
  /\ children_of (List (ItemList w ++ [s]))
     = children_of (List (ItemList w))
       ++ [Comp "ListItem" (Some (Datatypes.length (ItemList w))) (ListItem s)]
  /\ attribute "input" "value" (render (run [OnChange s; OnSubmit] w))
     = Some (PStr (lit "")).
Proof.
  intros Hs. destruct (type_and_submit_valid w s Hs) as [Hl Hd].
  split; [|split].
  - rewrite display_render, Hl, length_app. simpl.
    rewrite Nat.add_1_r. reflexivity.
  - unfold List, children_of, array_map.
    rewrite array_map_from_app. reflexivity.
  - rewrite <- Hd.
    generalize (run [OnChange s; OnSubmit] w). intros w'.
    destruct w' as [[i|] [l|] p t]; reflexivity.
Qed.

Lemma typed_and_submitted_item_is_last_row_witness :
  let w := run [OnChange (lit "Milk"); OnSubmit] initial in
  let s := lit " Eggs" in
  trim s <> lit ""
  /\ display (render (run [OnChange s; OnSubmit] w))
     = Some (Comp "List" None (List [lit "Milk"; s]))
  /\ attribute "input" "value" (render (run [OnChange s; OnSubmit] w))
     = Some (PStr (lit "")).
Proof.
  cbv zeta.
  assert (Hs : trim (lit " Eggs") <> lit "")
    by (intros H; vm_compute in H; discriminate H).
  split; [exact Hs|].
  destruct (typed_and_submitted_item_is_last_row
              (run [OnChange (lit "Milk"); OnSubmit] initial) (lit " Eggs") Hs)
    as (Hd & _ & Hv).
  split; [exact Hd | exact Hv].
Defined.

(** X10: [handleSubmit] writes the item list of the render that created it
    with the draft of that render appended. Called a second time before
    the next render, the same function leaves the two state cells as the
    first call left them: the item is not added twice. *)
Theorem handleSubmit_again_from_same_render
    (inputValue : jsstring) (items : list jsstring) (ev ev' : event)
    (w : world) :
  let w1 := snd (runState (handleSubmit inputValue items ev) w) in
  let w2 := snd (runState (handleSubmit inputValue items ev') w1) in
  cell_inputValue w2 = cell_inputValue w1
  /\ cell_items w2 = cell_items w1
  /\ cell_items w1
     = (if strict_neq (trim inputValue) (lit "")
        then Some (items ++ [inputValue]) else cell_items w).
Proof.
  unfold handleSubmit. cbn.
  destruct (strict_neq (trim inputValue) (lit "")); cbn; repeat split.
Qed.

(** X11: no blank row is ever displayed. In every state reached from the
    first render, [App] displays one of two things. Either the item list is
    empty and it is the paragraph with the text "No items yet. Add
    something!"; or it is the [List] component, whose [ul] holds one row
    per item of the item list, not none, the texts of the rows being the
    items, and the text of every row is not empty after trimming. *)
Theorem no_blank_row_is_displayed (events : list user_event) :
  (ItemList (run events initial) = []
   /\ display (render (run events initial))
      = Some (Host "p" [("className", PStr (lit "text-center text-gray-500"))]
                [Text (lit "No items yet. Add something!")]))
  \/ (exists rows : list element,
        display (render (run events initial))
        = Some (Comp "List" None
                  (Host "ul"
                     [("className", PStr (lit "list-none p-0 space-y-2"))]
                     rows))
        /\ rows = children_of (List (ItemList (run events initial)))
        /\ rows <> []
        /\ List.map textContent rows = ItemList (run events initial)
        /\ Forall (fun row => trim (textContent row) <> lit "") rows).
Proof.
  rewrite display_render.
  assert (Hv : Forall valid (ItemList (run events initial)))
    by (apply run_keeps_valid; constructor).
  destruct (ItemList (run events initial)) as [|item l].
  - left. split; reflexivity.
  - right. exists (children_of (List (item :: l))).
    assert (Ht : List.map textContent (children_of (List (item :: l)))
                 = item :: l)
      by apply (textContent_items (item :: l) 0).
    split; [reflexivity|]. split; [reflexivity|]. split; [discriminate|].
    split; [exact Ht|].
    apply (proj1 (Forall_map textContent (fun s => trim s <> lit "") _)).
    rewrite Ht. exact Hv.
Qed.

(** ** The two things [App] displays *)

Lemma count_p_display (l : list jsstring) :
  count_tag "p"
    (if 0 <? Datatypes.length l
     then Comp "List" None (List l) else placeholder)
  = if 0 <? Datatypes.length l then 0 else 1.
Proof.
  destruct l as [|item l]; [reflexivity|].
  cbn [Nat.ltb Nat.leb Datatypes.length].
  unfold List, array_map. cbn [count_tag].
  rewrite (count_other_rows "p" (item :: l) eq_refl 0). reflexivity.
Qed.

Lemma count_p_render (w : world) :
  count_tag "p" (render w)
  = if 0 <? Datatypes.length (ItemList w) then 0 else 1.
Proof.
  destruct w as [[i|] [l|] p t]; unfold render, ItemList; cbn [fst];
    cbn -[count_tag List placeholder Nat.ltb]; cbn [count_tag];
    rewrite ?count_p_display; cbn; try lia;
    destruct l; reflexivity.
Qed.

(** C5: the rendering rule of [App]. When the item list is not empty, [App]
    displays the [List] component applied to the item list, a [ul], and no
    paragraph. When the item list is empty, it displays the fixed
    paragraph whose text is "No items yet. Add something!", the only
    paragraph of the page, and no [ul] and no [li] occur anywhere in what
    [App] renders. *)
Theorem app_displays_list_or_placeholder (w : world) :
  display (render w)
  = Some (match ItemList w with
          | [] =>
              Host "p" [("className", PStr (lit "text-center text-gray-500"))]
                [Text (lit "No items yet. Add something!")]
          | _ :: _ => Comp "List" None (List (ItemList w))
          end)
  /\ match ItemList w with
     | [] =>
         option_map textContent (display (render w))
         = Some (lit "No items yet. Add something!")
         /\ count_tag "p" (render w) = 1
         /\ has_tag "ul" (render w) = false
         /\ has_tag "li" (render w) = false
     | _ :: _ =>
         option_map (fun e => has_tag "ul" e) (display (render w)) = Some true
         /\ count_tag "p" (render w) = 0
         /\ has_tag "ul" (render w) = true
     end.
Proof.
  split.
  - rewrite display_render. destruct (ItemList w); reflexivity.
  - pose proof (count_p_render w) as Hp.
    pose proof (display_render w) as Hd.
    destruct w as [[i|] [[|item l]|] p t];
      repeat split; try reflexivity; exact Hp.
Qed.
